(** * allegro_tiled: map.c

    A shallow embedding of [src/map.c], the "various map-related utility
    methods" of the Tiled-map addon for Allegro, and the properties of it
    that the specification states.

    Conventions of the embedding.
    - A C [int] is a [Z]; an operation whose mathematical result leaves
      the range of [int] is undefined behaviour.
    - A C [char] is a [Z] in the range of the platform's [char]; whether
      plain [char] is signed is implementation-defined, so the section
      below takes it as a variable.
    - Memory holds bytes ([Byte.byte]); a [char] array is a [list byte].
    - A pointer to a struct is the record of the struct's fields together
      with the address of the struct; a pointer that may be [NULL] is an
      [option]; a [GSList] is a [list].
    - Code with undefined behaviour (an index outside its array, a
      release of memory that is not live) returns [UB]. *)

From Stdlib Require Import ZArith String Ascii List Lia.
From Stdlib.Strings Require Import Byte.
From stdpp Require Import base gmap sets list strings.

Local Open Scope Z_scope.

(** ** Results of C code *)

(** An address; [NULL] is address 0. *)
Abbreviation ptr := N (only parsing).
Definition NULL : ptr := 0%N.

Inductive undefined : Type :=
| SignedOverflow
| OutOfBounds (index size : Z)
| InvalidFree (p : ptr).

Inductive result (A : Type) : Type :=
| Ok (a : A)
| UB (e : undefined).
Arguments Ok {A} a.
Arguments UB {A} e.

#[global] Instance result_ret : MRet result := @Ok.
#[global] Instance result_bind : MBind result :=
  fun A B f r => match r with Ok a => f a | UB e => UB e end.

(** ** C integers *)

Definition INT_MIN : Z := -2147483648.
Definition INT_MAX : Z := 2147483647.

Definition int_range (z : Z) : result Z :=
  if bool_decide (INT_MIN ≤ z ≤ INT_MAX) then Ok z else UB SignedOverflow.

Definition int_add (a b : Z) : result Z := int_range (a + b).
Definition int_mul (a b : Z) : result Z := int_range (a * b).

(** Conversion of an [int] to [bool]: any non-zero value is [true]. *)
Definition to_bool (z : Z) : bool := negb (z =? 0).

(** The value of a byte of memory, 0..255. *)
Definition byte_val (b : byte) : Z := Z.of_N (Byte.to_N b).

(** ** Strings and properties *)

(** A [char *] to a NUL-terminated string: its address and the characters
    before the terminator. *)
Record cstring : Type := { str_ptr : ptr; str_chars : string }.

(** [strcmp]: negative, zero or positive as the first string is less
    than, equal to or greater than the second. *)
Definition strcmp (s1 s2 : cstring) : Z :=
  match String.compare (str_chars s1) (str_chars s2) with
  | Eq => 0
  | Lt => -1
  | Gt => 1
  end.

(** Modelled from the spec: [map.h] is not among the sources. The records
    below have the fields [map.c] reads or releases, with the names it
    uses (prefixed by the struct, since [name] and [properties] occur in
    several), and the fields section 3 of the specification adds (a
    tile's [id], a layer's [height]). *)
Record TILED_PROPERTY : Type := {
  prop_ptr : ptr;
  prop_name : cstring;
  prop_value : cstring
}.

Record TILED_MAP_TILE : Type := {
  tile_ptr : ptr;
  tile_id : Z;
  tile_bitmap : ptr;
  tile_properties : list TILED_PROPERTY
}.

Record TILED_MAP_TILESET : Type := {
  tileset_ptr : ptr;
  tileset_name : cstring;
  tileset_source : cstring;
  tileset_tiles : list TILED_MAP_TILE;
  tileset_bitmap : ptr
}.

Record TILED_MAP_LAYER : Type := {
  layer_ptr : ptr;
  layer_name : cstring;
  width : Z;
  height : Z;
  data_ptr : ptr;
  data : list byte
}.

Record TILED_OBJECT : Type := {
  object_ptr : ptr;
  object_name : cstring;
  object_type : cstring;
  object_properties : list TILED_PROPERTY
}.

Record TILED_OBJECT_GROUP : Type := {
  group_ptr : ptr;
  group_name : cstring
}.

(** ** The heap, as far as teardown sees it *)

(** The live resources (memory blocks, bitmaps, hash tables), by address.
    A step of teardown takes the heap to a new heap or is undefined. *)
Abbreviation heap := (gset N) (only parsing).
Abbreviation teardown := (gset N → result (gset N)) (only parsing).

Definition and_then (f g : teardown) : teardown := fun h => f h ≫= g.
Infix ">>" := and_then (at level 65, right associativity).

(** [al_free], [al_destroy_bitmap]: nothing on [NULL]; releasing what is
    not live (a second release included) is undefined. *)
Definition release (p : ptr) : teardown := fun h =>
  if bool_decide (p = NULL) then Ok h
  else if bool_decide (p ∈ h) then Ok (h ∖ {[p]})
  else UB (InvalidFree p).

Definition al_free (p : ptr) : teardown := release p.
Definition al_destroy_bitmap (p : ptr) : teardown := release p.

(** GLib's [g_slist_free_full]: [free_func] on the data of every element,
    first to last (the list's own cells are GLib's and not tracked). *)
Fixpoint g_slist_free_full {A : Type} (l : list A) (free_func : A → teardown)
  : teardown :=
  match l with
  | [] => fun h => Ok h
  | x :: l' => free_func x >> g_slist_free_full l' free_func
  end.

(** Modelled from the spec: the table is created by the parser, which is
    not among the sources. A [GHashTable] from tile id to tile, with
    GLib's reference count and the value-destroy notifier the table was
    created with ([None] for [g_hash_table_new], which is what the
    specification's "non-owning index" describes). A key is the [char] id
    itself: the cast [(gpointer)id] is injective on [char]. *)
Record GHashTable : Type := {
  ht_ptr : ptr;
  ht_ref_count : nat;
  ht_nodes : gmap Z TILED_MAP_TILE;
  ht_value_destroy_func : option (TILED_MAP_TILE → teardown)
}.

(** GLib's [g_hash_table_lookup]: the value of the key, or [NULL]. *)
Definition g_hash_table_lookup (t : GHashTable) (key : Z)
  : option TILED_MAP_TILE :=
  ht_nodes t !! key.

(** GLib's [g_hash_table_unref]: the count drops by one; when it reaches
    zero the values are handed to the value-destroy notifier, if the
    table has one, and the table itself is released. (The count of a
    table that stays is not part of the heap.) *)
Definition g_hash_table_unref (t : GHashTable) : teardown :=
  match ht_ref_count t with
  | O => fun h => UB (InvalidFree (ht_ptr t))
  | S O =>
      match ht_value_destroy_func t with
      | Some value_destroy =>
          g_slist_free_full (map_to_list (ht_nodes t)).*2 value_destroy
      | None => fun h => Ok h
      end >> release (ht_ptr t)
  | S (S _) => fun h => Ok h
  end.

Record TILED_MAP : Type := {
  map_ptr : ptr;
  orientation : cstring;
  tilesets : list TILED_MAP_TILESET;
  layers : list TILED_MAP_LAYER;
  objects : list TILED_OBJECT;
  object_groups : list TILED_OBJECT_GROUP;
  tiles : GHashTable;
  backbuffer : ptr
}.

(** Modelled from the spec: the flag constants are macros of [map.h],
    which is not among the sources; section 6 of the specification puts
    the flags in the three most significant bits of the tile byte, in the
    order horizontal, vertical, diagonal. *)
Definition FLIPPED_HORIZONTALLY_FLAG : Z := 0x80.
Definition FLIPPED_VERTICALLY_FLAG : Z := 0x40.
Definition FLIPPED_DIAGONALLY_FLAG : Z := 0x20.

(** A block returned by [malloc]: its cells, none of them initialised. *)
Abbreviation block := (list (option Z)) (only parsing).

Definition malloc (size : Z) : block := replicate (Z.to_nat size) None.

(** [b[i] = v]: undefined outside the block. *)
Definition store (b : block) (i : Z) (v : Z) : result block :=
  if bool_decide (0 ≤ i < Z.of_nat (length b))
  then Ok (<[Z.to_nat i := Some v]> b)
  else UB (OutOfBounds i (Z.of_nat (length b))).

(** GLib's [g_slist_length]. *)
Definition g_slist_length {A : Type} (l : list A) : Z := Z.of_nat (length l).

Section MapC.

(** Whether plain [char] is signed on the platform. *)
Variable char_is_signed : bool.

(** Conversion of an [int] to [char]: modulo 256, into the range of
    [char]. *)
Definition to_char (z : Z) : Z :=
  let r := z mod 256 in
  if char_is_signed && (128 <=? r) then r - 256 else r.

(** The [char] read from a byte of memory. *)
Definition load_char (b : byte) : Z := to_char (byte_val b).

(** The byte a [char] is stored as. *)
Definition store_char (c : Z) : byte :=
  default x00 (Byte.of_N (Z.to_N (c mod 256))).

(** ** Tile lookup (map.c, lines 24-82) *)

(** [layer->data[x+(y*layer->width)]] *)
Definition lookup_tile (layer : TILED_MAP_LAYER) (x y : Z) : result Z :=
  row ← int_mul y (width layer);
  i ← int_add x row;
  if bool_decide (0 ≤ i) then
    match data layer !! Z.to_nat i with
    | Some b => Ok (load_char b)
    | None => UB (OutOfBounds i (Z.of_nat (length (data layer))))
    end
  else UB (OutOfBounds i (Z.of_nat (length (data layer)))).

(** [id &= ~(FLIPPED_HORIZONTALLY_FLAG|FLIPPED_VERTICALLY_FLAG
    |FLIPPED_DIAGONALLY_FLAG)]: [id] is promoted to [int], anded with the
    complement of the flags, and converted back to [char]. *)
Definition clear_flip_flags (id : Z) : Z :=
  to_char (Z.land id
             (Z.lnot (Z.lor (Z.lor FLIPPED_HORIZONTALLY_FLAG
                                   FLIPPED_VERTICALLY_FLAG)
                            FLIPPED_DIAGONALLY_FLAG))).

Definition al_get_single_tile (layer : TILED_MAP_LAYER) (x y : Z)
  : result Z :=
  id ← lookup_tile layer x y;
  Ok (clear_flip_flags id).

(** The terminator of [al_get_tiles]: [(char)-1]. *)
Definition TILES_END : Z := to_char (-1).

(** The [while (layers)] loop of [al_get_tiles]. *)
Fixpoint al_get_tiles_loop (layers : list TILED_MAP_LAYER) (x y : Z)
  (i : Z) (tiles : block) : result block :=
  match layers with
  | [] => Ok tiles
  | layer :: layers' =>
      id ← al_get_single_tile layer x y;
      tiles ← store tiles i id;
      i ← int_add i 1;
      al_get_tiles_loop layers' x y i tiles
  end.

(** [al_get_tiles] from the line after [malloc] on (lines 54-65), for a
    given block: the terminator goes to cell [layer_count], then the loop
    fills the cells from 0. *)
Definition al_get_tiles_in (tiles : block) (map : TILED_MAP) (x y : Z)
  : result block :=
  let layer_count := g_slist_length (layers map) in
  tiles ← store tiles layer_count TILES_END;
  al_get_tiles_loop (layers map) x y 0 tiles.

(** [malloc(sizeof(char) * (layer_count))], with [sizeof(char)] = 1, and
    then the rest of the function on that block. *)
Definition al_get_tiles (map : TILED_MAP) (x y : Z) : result block :=
  let layer_count := g_slist_length (layers map) in
  let tiles := malloc (1 * layer_count) in
  al_get_tiles_in tiles map x y.

Definition flipped_horizontally (layer : TILED_MAP_LAYER) (x y : Z)
  : result bool :=
  raw ← lookup_tile layer x y;
  Ok (to_bool (Z.land raw FLIPPED_HORIZONTALLY_FLAG)).

Definition flipped_vertically (layer : TILED_MAP_LAYER) (x y : Z)
  : result bool :=
  raw ← lookup_tile layer x y;
  Ok (to_bool (Z.land raw FLIPPED_VERTICALLY_FLAG)).

End MapC.

(** ** Tiles and properties (map.c, lines 84-134) *)

Definition al_get_tile_for_id (map : TILED_MAP) (id : Z)
  : option TILED_MAP_TILE :=
  if id =? 0 then None
  else g_hash_table_lookup (tiles map) id.

Definition al_get_tile_property (tile : option TILED_MAP_TILE)
  (name def : cstring) : cstring :=
  match tile with
  | Some tile =>
      (fix while (properties : list TILED_PROPERTY) : cstring :=
         match properties with
         | [] => def
         | prop :: next =>
             if negb (to_bool (strcmp (prop_name prop) name))
             then prop_value prop
             else while next
         end) (tile_properties tile)
  | None => def
  end.

Definition al_get_object_property (object : option TILED_OBJECT)
  (name def : cstring) : cstring :=
  match object with
  | Some object =>
      (fix while (properties : list TILED_PROPERTY) : cstring :=
         match properties with
         | [] => def
         | prop :: next =>
             if negb (to_bool (strcmp (prop_name prop) name))
             then prop_value prop
             else while next
         end) (object_properties object)
  | None => def
  end.

(** ** Teardown (map.c, lines 136-199) *)

Definition _al_free_property (prop : TILED_PROPERTY) : teardown :=
  al_free (str_ptr (prop_name prop)) >>
  al_free (str_ptr (prop_value prop)) >>
  al_free (prop_ptr prop).

Definition _al_free_tile (tile : TILED_MAP_TILE) : teardown :=
  g_slist_free_full (tile_properties tile) _al_free_property >>
  al_destroy_bitmap (tile_bitmap tile) >>
  al_free (tile_ptr tile).

Definition _al_free_tileset (tileset : TILED_MAP_TILESET) : teardown :=
  al_free (str_ptr (tileset_name tileset)) >>
  al_free (str_ptr (tileset_source tileset)) >>
  g_slist_free_full (tileset_tiles tileset) _al_free_tile >>
  al_destroy_bitmap (tileset_bitmap tileset) >>
  al_free (tileset_ptr tileset).

Definition _al_free_layer (layer : TILED_MAP_LAYER) : teardown :=
  al_free (str_ptr (layer_name layer)) >>
  al_free (data_ptr layer) >>
  al_free (layer_ptr layer).

Definition _al_free_object (object : TILED_OBJECT) : teardown :=
  g_slist_free_full (object_properties object) _al_free_property >>
  al_free (str_ptr (object_name object)) >>
  al_free (str_ptr (object_type object)) >>
  al_free (object_ptr object).

Definition _al_free_object_group (group : TILED_OBJECT_GROUP) : teardown :=
  al_free (str_ptr (group_name group)) >>
  al_free (group_ptr group).

Definition al_free_map (map : TILED_MAP) : teardown :=
  al_free (str_ptr (orientation map)) >>
  g_slist_free_full (tilesets map) _al_free_tileset >>
  g_slist_free_full (layers map) _al_free_layer >>
  g_slist_free_full (objects map) _al_free_object >>
  g_slist_free_full (object_groups map) _al_free_object_group >>
  g_hash_table_unref (tiles map) >>
  al_destroy_bitmap (backbuffer map) >>
  al_free (map_ptr map).

(** ** Well-formed data *)

(** A layer as the parser leaves it: [data] has [width * height] cells,
    a number that fits an [int]. *)
Definition layer_wf (layer : TILED_MAP_LAYER) : Prop :=
  0 ≤ width layer ∧ 0 ≤ height layer ∧
  Z.of_nat (length (data layer)) = width layer * height layer ∧
  width layer * height layer ≤ INT_MAX.

(** The row-major index of cell (x, y). *)
Definition cell_index (layer : TILED_MAP_LAYER) (x y : Z) : nat :=
  Z.to_nat (x + y * width layer).

(** An id with no flip flag: below the lowest flag bit. *)
Definition unflagged (id : Z) : Prop := 0 ≤ id < FLIPPED_DIAGONALLY_FLAG.

(** The addresses a struct owns, in the order teardown reaches them. *)
Definition property_owned (prop : TILED_PROPERTY) : list ptr :=
  [str_ptr (prop_name prop); str_ptr (prop_value prop); prop_ptr prop].

Definition tile_owned (tile : TILED_MAP_TILE) : list ptr :=
  (tile_properties tile ≫= property_owned)
  ++ [tile_bitmap tile; tile_ptr tile].

Definition tileset_owned (tileset : TILED_MAP_TILESET) : list ptr :=
  [str_ptr (tileset_name tileset); str_ptr (tileset_source tileset)]
  ++ (tileset_tiles tileset ≫= tile_owned)
  ++ [tileset_bitmap tileset; tileset_ptr tileset].

Definition layer_owned (layer : TILED_MAP_LAYER) : list ptr :=
  [str_ptr (layer_name layer); data_ptr layer; layer_ptr layer].

Definition object_owned (object : TILED_OBJECT) : list ptr :=
  (object_properties object ≫= property_owned)
  ++ [str_ptr (object_name object); str_ptr (object_type object);
      object_ptr object].

Definition group_owned (group : TILED_OBJECT_GROUP) : list ptr :=
  [str_ptr (group_name group); group_ptr group].

(** Everything a map owns. The tiles of the registry are not in it: they
    are the tilesets' (specification, section 3). *)
Definition map_owned (map : TILED_MAP) : list ptr :=
  [str_ptr (orientation map)]
  ++ (tilesets map ≫= tileset_owned)
  ++ (layers map ≫= layer_owned)
  ++ (objects map ≫= object_owned)
  ++ (object_groups map ≫= group_owned)
  ++ [ht_ptr (tiles map); backbuffer map; map_ptr map].

(** The addresses of a list that are not [NULL]. *)
Definition non_null (l : list ptr) : list ptr :=
  filter (λ p, p ≠ NULL) l.

(** An ownership graph in a heap: no address is owned twice, every owned
    address is live, and the registry is the map's alone and has no
    value-destroy notifier. *)
Definition map_wf (map : TILED_MAP) (h : heap) : Prop :=
  NoDup (non_null (map_owned map)) ∧
  Forall (λ p, p ∈ h) (non_null (map_owned map)) ∧
  ht_ref_count (tiles map) = 1%nat ∧
  ht_value_destroy_func (tiles map) = None.

(** The sequential release of a list of addresses. *)
Definition release_all (l : list ptr) : teardown :=
  g_slist_free_full l release.

(** [f] performs the releases [l], first to last. *)
Definition frees (f : teardown) (l : list ptr) : Prop :=
  ∀ h, f h = release_all l h.

(** The map with other entries in its registry. *)
Definition with_nodes (map : TILED_MAP) (nodes : gmap Z TILED_MAP_TILE)
  : TILED_MAP :=
  {| map_ptr := map_ptr map; orientation := orientation map;
     tilesets := tilesets map; layers := layers map; objects := objects map;
     object_groups := object_groups map;
     tiles := {| ht_ptr := ht_ptr (tiles map);
                 ht_ref_count := ht_ref_count (tiles map);
                 ht_nodes := nodes;
                 ht_value_destroy_func := ht_value_destroy_func (tiles map) |};
     backbuffer := backbuffer map |}.

(** The property has the queried name, character for character. *)
Definition named (name : cstring) (prop : TILED_PROPERTY) : Prop :=
  str_chars (prop_name prop) = str_chars name.

(** ** Example data *)

Definition str (p : ptr) (chars : string) : cstring :=
  {| str_ptr := p; str_chars := chars |}.

(** A 3 x 2 layer; the cells carry flags in every combination. *)
Definition ground : TILED_MAP_LAYER :=
  {| layer_ptr := 40; layer_name := str 41 "ground";
     width := 3; height := 2; data_ptr := 42;
     data := [x01; x82; x43; xff; x00; x1f] |}.

Definition sky : TILED_MAP_LAYER :=
  {| layer_ptr := 50; layer_name := str 51 "sky";
     width := 3; height := 2; data_ptr := 52;
     data := [x00; x05; xe0; x24; x00; x9e] |}.

(** The tile of the specification's example: two properties of one
    name. *)
Definition solid_tile : TILED_MAP_TILE :=
  {| tile_ptr := 20; tile_id := 1; tile_bitmap := 21;
     tile_properties :=
       [ {| prop_ptr := 22; prop_name := str 23 "solid";
            prop_value := str 24 "true" |};
         {| prop_ptr := 25; prop_name := str 26 "solid";
            prop_value := str 27 "false" |} ] |}.

(** A tile of a second tileset, with the id of the first. *)
Definition other_tile : TILED_MAP_TILE :=
  {| tile_ptr := 30; tile_id := 1; tile_bitmap := NULL;
     tile_properties := [] |}.

Definition crate : TILED_OBJECT :=
  {| object_ptr := 60; object_name := str 61 "crate";
     object_type := str 62 "box";
     object_properties :=
       [ {| prop_ptr := 63; prop_name := str 64 "solid";
            prop_value := str 65 "true" |};
         {| prop_ptr := 66; prop_name := str 67 "solid";
            prop_value := str 68 "false" |} ] |}.

(** The registry of the example map: id 1 resolves to [other_tile]. *)
Definition registry (destroy : option (TILED_MAP_TILE → teardown))
  : GHashTable :=
  {| ht_ptr := 3; ht_ref_count := 1;
     ht_nodes := {[ 1 := other_tile ]};
     ht_value_destroy_func := destroy |}.

(** Two tilesets of one tile each, both tiles of id 1. *)
Definition example_map_with (table : GHashTable) : TILED_MAP :=
  {| map_ptr := 1; orientation := str 2 "orthogonal";
     tilesets :=
       [ {| tileset_ptr := 10; tileset_name := str 11 "walls";
            tileset_source := str 12 "walls.png";
            tileset_tiles := [solid_tile]; tileset_bitmap := 13 |};
         {| tileset_ptr := 14; tileset_name := str 15 "props";
            tileset_source := str 16 "props.png";
            tileset_tiles := [other_tile]; tileset_bitmap := 17 |} ];
     layers := [ground; sky];
     objects := [crate];
     object_groups := [ {| group_ptr := 70; group_name := str 71 "items" |} ];
     tiles := table;
     backbuffer := 4 |}.

Definition example_map : TILED_MAP := example_map_with (registry None).

(** The heap of the example map, and one block that is not the map's. *)
Definition example_heap : heap :=
  list_to_set (99%N :: non_null (map_owned example_map)).

(** An id grid and the layer that stores it row-major. *)
Definition example_grid : list (list Z) := [[1; 2; 3]; [0; 31; 7]].

Definition grid_layer : TILED_MAP_LAYER :=
  {| layer_ptr := 80; layer_name := str 81 "grid";
     width := 3; height := 2; data_ptr := 82;
     data := [x01; x02; x03; x00; x1f; x07] |}.

(** * Properties *)

(** ** Tile lookup *)

Lemma int_range_ok z : INT_MIN ≤ z ≤ INT_MAX → int_range z = Ok z.
Proof. intros Hz. unfold int_range. by rewrite bool_decide_eq_true_2. Qed.

(** Bit [i] of [z & 0x1F] is bit [i] of [z] when [i < 5], and clear
    otherwise. *)
Lemma mask_bits z i : Z.testbit (Z.land z 0x1F) i = Z.testbit z i && (i <? 5).
Proof.
  rewrite Z.land_spec.
  destruct (Z.ltb_spec i 0) as [Hneg|Hpos].
  - by rewrite !(Z.testbit_neg_r z i).
  - change 0x1F with (Z.ones 5). by rewrite Z.testbit_ones_nonneg.
Qed.

(** The cell (i, j) of a grid of rows of length [n], in its row-major
    flattening. *)
Lemma concat_lookup_row {A} (n : nat) (grid : list (list A)) j i row a :
  Forall (λ r, length r = n) grid →
  grid !! j = Some row → row !! i = Some a →
  concat grid !! (j * n + i)%nat = Some a.
Proof.
  intros Hrows. revert j.
  induction Hrows as [|r grid Hr _ IH]; intros j Hrow Ha.
  - done.
  - destruct j as [|j]; simpl in *.
    + simplify_eq. by apply lookup_app_l_Some.
    + rewrite lookup_app_r by lia.
      replace (n + j * n + i - length r)%nat with (j * n + i)%nat by lia.
      by apply IH.
Qed.

Lemma store_char_val c : 0 ≤ c < 256 → byte_val (store_char c) = c.
Proof.
  intros Hc. unfold store_char, byte_val. rewrite Z.mod_small by done.
  destruct (Byte.of_N (Z.to_N c)) as [b|] eqn:Hb; simpl.
  - apply Byte.to_of_N in Hb. lia.
  - apply Byte.of_N_None_iff in Hb. lia.
Qed.

Lemma malloc_length n : 0 ≤ n → Z.of_nat (length (malloc n)) = n.
Proof. intros Hn. unfold malloc. rewrite length_replicate. lia. Qed.

(** A store into the cell right after [pre]. *)
Lemma store_middle (pre suf : list (option Z)) old v :
  store (pre ++ old :: suf) (Z.of_nat (length pre)) v
  = Ok (pre ++ Some v :: suf).
Proof.
  unfold store. rewrite bool_decide_eq_true_2.
  - rewrite Nat2Z.id, insert_app_r_alt, Nat.sub_diag by done. done.
  - rewrite length_app. simpl. lia.
Qed.

Ltac layer_facts :=
  first [ lia | repeat split; vm_compute; congruence ].

Section LayerProperties.

Variable char_is_signed : bool.

Local Abbreviation load_char := (load_char char_is_signed).
Local Abbreviation lookup_tile := (lookup_tile char_is_signed).
Local Abbreviation clear_flip_flags := (clear_flip_flags char_is_signed).
Local Abbreviation al_get_single_tile := (al_get_single_tile char_is_signed).
Local Abbreviation flipped_horizontally :=
  (flipped_horizontally char_is_signed).
Local Abbreviation flipped_vertically := (flipped_vertically char_is_signed).
Local Abbreviation TILES_END := (TILES_END char_is_signed).
Local Abbreviation al_get_tiles := (al_get_tiles char_is_signed).
Local Abbreviation al_get_tiles_in := (al_get_tiles_in char_is_signed).
Local Abbreviation al_get_tiles_loop := (al_get_tiles_loop char_is_signed).

(** Reading an in-bounds cell of a well-formed layer is defined, and
    gives the byte stored at the row-major index. *)
Lemma lookup_tile_in_bounds layer x y :
  layer_wf layer → 0 ≤ x < width layer → 0 ≤ y < height layer →
  ∃ b, data layer !! cell_index layer x y = Some b ∧
       lookup_tile layer x y = Ok (load_char b).
Proof.
  intros (Hw & Hh & Hlen & Hmax) Hx Hy.
  assert (0 ≤ y * width layer ≤ (height layer - 1) * width layer) by nia.
  assert (0 ≤ x + y * width layer < width layer * height layer) by nia.
  destruct (lookup_lt_is_Some_2 (data layer) (cell_index layer x y)) as [b Hb].
  { unfold cell_index. lia. }
  exists b. split; [done|].
  unfold lookup_tile, int_mul, int_add.
  rewrite int_range_ok by (unfold INT_MIN, INT_MAX in *; lia). cbn.
  rewrite int_range_ok by (unfold INT_MIN, INT_MAX in *; lia). cbn.
  rewrite bool_decide_eq_true_2 by lia.
  unfold cell_index in Hb. by rewrite Hb.
Qed.

Lemma al_get_single_tile_of_lookup layer x y raw :
  lookup_tile layer x y = Ok raw →
  al_get_single_tile layer x y = Ok (clear_flip_flags raw).
Proof. intros Hraw. unfold al_get_single_tile. by rewrite Hraw. Qed.

(** The masked [char], for each of the 256 bytes and either signedness
    of [char]. *)
Lemma clear_flip_flags_byte b :
  clear_flip_flags (load_char b) = Z.land (byte_val b) 0x1F ∧
  Z.land (byte_val b) 0x1F = Z.land (load_char b) 0x1F.
Proof. destruct char_is_signed, b; split; reflexivity. Qed.

Lemma flip_tests_byte b :
  to_bool (Z.land (load_char b) FLIPPED_HORIZONTALLY_FLAG)
    = Z.testbit (byte_val b) 7 ∧
  to_bool (Z.land (load_char b) FLIPPED_VERTICALLY_FLAG)
    = Z.testbit (byte_val b) 6.
Proof. destruct char_is_signed, b; split; reflexivity. Qed.

Lemma masked_byte_flag_free b :
  let id := Z.land (byte_val b) 0x1F in
  0 ≤ id ≤ 31 ∧
  Z.land id FLIPPED_HORIZONTALLY_FLAG = 0 ∧
  Z.land id FLIPPED_VERTICALLY_FLAG = 0 ∧
  Z.land id FLIPPED_DIAGONALLY_FLAG = 0 ∧
  clear_flip_flags id = id ∧
  id ≠ TILES_END ∧
  store_char id ≠ store_char TILES_END.
Proof. destruct char_is_signed, b; vm_compute; repeat split; congruence. Qed.

(** C3. In a well-formed layer, at an in-bounds (x, y), whatever byte [b]
    the cell stores: [lookup_tile] reads it, and [al_get_single_tile]
    returns it with the three high bits cleared, that is [b & 0x1F] (and
    the same mask of the [char] that [lookup_tile] returns); bit [i] of
    the result is bit [i] of the byte for [i < 5] and clear otherwise. *)
Theorem al_get_single_tile_clears_flip_flags layer x y :
  layer_wf layer → 0 ≤ x < width layer → 0 ≤ y < height layer →
  ∃ b : byte,
    data layer !! cell_index layer x y = Some b ∧
    lookup_tile layer x y = Ok (load_char b) ∧
    al_get_single_tile layer x y = Ok (Z.land (byte_val b) 0x1F) ∧
    al_get_single_tile layer x y = Ok (Z.land (load_char b) 0x1F) ∧
    ∀ i, Z.testbit (Z.land (byte_val b) 0x1F) i
         = Z.testbit (byte_val b) i && (i <? 5).
Proof.
  intros Hwf Hx Hy.
  destruct (lookup_tile_in_bounds layer x y Hwf Hx Hy) as (b & Hcell & Hraw).
  destruct (clear_flip_flags_byte b) as [Hmask Hsame].
  exists b. split_and!; try done.
  - by rewrite (al_get_single_tile_of_lookup _ _ _ _ Hraw), Hmask.
  - by rewrite (al_get_single_tile_of_lookup _ _ _ _ Hraw), Hmask, Hsame.
  - intros i. apply mask_bits.
Qed.

(** C7. In a well-formed layer, at an in-bounds (x, y), whatever byte [b]
    the cell stores: [flipped_horizontally] is bit 7 of [b] and
    [flipped_vertically] is bit 6 of [b]. Each answer is a function of
    its one bit: two cells (of any layers) whose bytes agree on bit 7
    have the same [flipped_horizontally], whatever their other bits, and
    likewise for bit 6 and [flipped_vertically]. *)
Theorem flip_tests_read_their_bit layer x y :
  layer_wf layer → 0 ≤ x < width layer → 0 ≤ y < height layer →
  ∃ b : byte,
    data layer !! cell_index layer x y = Some b ∧
    flipped_horizontally layer x y = Ok (Z.testbit (byte_val b) 7) ∧
    flipped_vertically layer x y = Ok (Z.testbit (byte_val b) 6) ∧
    ∀ layer' x' y' b',
      layer_wf layer' → 0 ≤ x' < width layer' → 0 ≤ y' < height layer' →
      data layer' !! cell_index layer' x' y' = Some b' →
      (Z.testbit (byte_val b) 7 = Z.testbit (byte_val b') 7 →
       flipped_horizontally layer x y = flipped_horizontally layer' x' y') ∧
      (Z.testbit (byte_val b) 6 = Z.testbit (byte_val b') 6 →
       flipped_vertically layer x y = flipped_vertically layer' x' y').
Proof.
  assert (Hflip : ∀ l u v c,
    layer_wf l → 0 ≤ u < width l → 0 ≤ v < height l →
    data l !! cell_index l u v = Some c →
    flipped_horizontally l u v = Ok (Z.testbit (byte_val c) 7) ∧
    flipped_vertically l u v = Ok (Z.testbit (byte_val c) 6)).
  { intros l u v c Hwf Hu Hv Hc.
    destruct (lookup_tile_in_bounds l u v Hwf Hu Hv) as (c' & Hc' & Hraw).
    assert (c' = c) as -> by congruence.
    destruct (flip_tests_byte c) as [Hh Hv'].
    unfold flipped_horizontally, flipped_vertically.
    rewrite Hraw. cbn. by rewrite Hh, Hv'. }
  intros Hwf Hx Hy.
  destruct (lookup_tile_in_bounds layer x y Hwf Hx Hy) as (b & Hcell & _).
  destruct (Hflip layer x y b Hwf Hx Hy Hcell) as [Hh Hv].
  exists b. split_and!; try done.
  intros layer' x' y' b' Hwf' Hx' Hy' Hcell'.
  destruct (Hflip layer' x' y' b' Hwf' Hx' Hy' Hcell') as [Hh' Hv'].
  split; intros Hbit; congruence.
Qed.

(** C10. In a well-formed layer, at an in-bounds (x, y),
    [al_get_single_tile] returns an id with the horizontal, vertical and
    diagonal flag bits clear; masking it again returns it unchanged; and
    wherever a cell reads as this id, [flipped_horizontally] and
    [flipped_vertically] are false. *)
Theorem decoded_id_is_flag_free layer x y :
  layer_wf layer → 0 ≤ x < width layer → 0 ≤ y < height layer →
  ∃ id : Z,
    al_get_single_tile layer x y = Ok id ∧
    Z.land id FLIPPED_HORIZONTALLY_FLAG = 0 ∧
    Z.land id FLIPPED_VERTICALLY_FLAG = 0 ∧
    Z.land id FLIPPED_DIAGONALLY_FLAG = 0 ∧
    clear_flip_flags id = id ∧
    ∀ layer' x' y',
      lookup_tile layer' x' y' = Ok id →
      flipped_horizontally layer' x' y' = Ok false ∧
      flipped_vertically layer' x' y' = Ok false.
Proof.
  intros Hwf Hx Hy.
  destruct (lookup_tile_in_bounds layer x y Hwf Hx Hy) as (b & _ & Hraw).
  destruct (clear_flip_flags_byte b) as [Hmask _].
  destruct (masked_byte_flag_free b) as (_ & Hh & Hv & Hd & Hidem & _).
  exists (Z.land (byte_val b) 0x1F). split_and!; try done.
  - by rewrite (al_get_single_tile_of_lookup _ _ _ _ Hraw), Hmask.
  - intros layer' x' y' Hid.
    unfold flipped_horizontally, flipped_vertically.
    rewrite Hid. cbn. by rewrite Hh, Hv.
Qed.

(** C4. In a well-formed layer, at an in-bounds (x, y), whatever byte the
    cell stores, [al_get_single_tile] returns an id between 0 and 31; it
    differs from the terminator [(char)-1] that [al_get_tiles] writes,
    as a [char] and as the byte it is stored as, which is 0xFF. *)
Theorem decoded_id_is_not_terminator layer x y :
  layer_wf layer → 0 ≤ x < width layer → 0 ≤ y < height layer →
  ∃ id : Z,
    al_get_single_tile layer x y = Ok id ∧
    0 ≤ id ≤ 31 ∧
    id ≠ TILES_END ∧
    store_char id ≠ store_char TILES_END ∧
    store_char TILES_END = xff.
Proof.
  intros Hwf Hx Hy.
  destruct (lookup_tile_in_bounds layer x y Hwf Hx Hy) as (b & _ & Hraw).
  destruct (clear_flip_flags_byte b) as [Hmask _].
  destruct (masked_byte_flag_free b) as (Hrange & _ & _ & _ & _ & Hne & Hbyte).
  exists (Z.land (byte_val b) 0x1F). split_and!; try done; try lia.
  - by rewrite (al_get_single_tile_of_lookup _ _ _ _ Hraw), Hmask.
  - by destruct char_is_signed.
Qed.

(** An unflagged byte reads as its value, and masking leaves it. *)
Lemma unflagged_byte b :
  byte_val b < 32 →
  load_char b = byte_val b ∧ clear_flip_flags (byte_val b) = byte_val b.
Proof.
  destruct char_is_signed, b; intros Hb;
    first [ by vm_compute in Hb | split; reflexivity ].
Qed.

(** C8. Round trip. Let [grid] be [height] rows of [width] unflagged ids
    each, and let the layer store it row-major, one byte per id. Then at
    every (x, y) with [0 <= x < width] and [0 <= y < height],
    [al_get_single_tile] returns the id of row [y], column [x] of the
    grid. *)
Theorem tile_ids_round_trip layer (grid : list (list Z)) x y :
  layer_wf layer →
  Z.of_nat (length grid) = height layer →
  Forall (λ row, Z.of_nat (length row) = width layer) grid →
  Forall (Forall unflagged) grid →
  data layer = store_char <$> concat grid →
  0 ≤ x < width layer → 0 ≤ y < height layer →
  ∃ row id,
    grid !! Z.to_nat y = Some row ∧ row !! Z.to_nat x = Some id ∧
    al_get_single_tile layer x y = Ok id.
Proof.
  intros Hwf Hrows Hcols Hids Hdata Hx Hy.
  destruct (lookup_lt_is_Some_2 grid (Z.to_nat y)) as [row Hrow]; [lia|].
  assert (Hlen : Z.of_nat (length row) = width layer).
  { exact (Forall_lookup_1 _ _ _ _ Hcols Hrow). }
  destruct (lookup_lt_is_Some_2 row (Z.to_nat x)) as [id Hid]; [lia|].
  assert (Hflag : unflagged id).
  { exact (Forall_lookup_1 _ _ _ _ (Forall_lookup_1 _ _ _ _ Hids Hrow) Hid). }
  exists row, id. split_and!; try done.
  destruct (lookup_tile_in_bounds layer x y Hwf Hx Hy) as (b & Hcell & Hraw).
  assert (b = store_char id) as ->.
  { revert Hcell. rewrite Hdata, list_lookup_fmap.
    replace (cell_index layer x y)
      with (Z.to_nat y * Z.to_nat (width layer) + Z.to_nat x)%nat
      by (unfold cell_index; nia).
    rewrite (concat_lookup_row (Z.to_nat (width layer)) grid _ _ row id);
      [cbn; congruence| |done|done].
    eapply Forall_impl; [exact Hcols|]. cbn. lia. }
  unfold unflagged, FLIPPED_DIAGONALLY_FLAG in Hflag.
  rewrite (al_get_single_tile_of_lookup _ _ _ _ Hraw).
  destruct (unflagged_byte (store_char id)) as [Hload Hclear];
    rewrite store_char_val in *; try lia.
  by rewrite Hload, Hclear.
Qed.

(** C1 (the code departs from the claim). For every map and position,
    [al_get_tiles] is undefined: the block it allocates has [layer_count]
    cells, and its first store, of the terminator, is to cell
    [layer_count], one past the end. *)
Theorem al_get_tiles_overruns_its_block map x y :
  al_get_tiles map x y
  = UB (OutOfBounds (g_slist_length (layers map))
                    (g_slist_length (layers map))).
Proof.
  unfold al_get_tiles, al_get_tiles_in, store.
  rewrite Z.mul_1_l, malloc_length by (unfold g_slist_length; lia).
  by rewrite bool_decide_eq_false_2 by lia.
Qed.

(** The loop of [al_get_tiles] writes the ids of the layers, in order,
    into the cells after [pre]. *)
Lemma al_get_tiles_loop_fills ls x y : ∀ pre suf,
  Forall (λ l, layer_wf l ∧ 0 ≤ x < width l ∧ 0 ≤ y < height l) ls →
  Z.of_nat (length pre + length ls) ≤ INT_MAX →
  ∃ ids,
    Forall2 (λ l id, al_get_single_tile l x y = Ok id) ls ids ∧
    al_get_tiles_loop ls x y (Z.of_nat (length pre))
      (pre ++ replicate (length ls) None ++ suf)
    = Ok (pre ++ (Some <$> ids) ++ suf).
Proof.
  induction ls as [|l ls IH]; intros pre suf Hls Hmax.
  - exists []. split; [constructor|done].
  - apply Forall_cons in Hls as [(Hwf & Hx & Hy) Hls].
    destruct (lookup_tile_in_bounds l x y Hwf Hx Hy) as (b & _ & Hraw).
    pose proof (al_get_single_tile_of_lookup _ _ _ _ Hraw) as Hid.
    destruct (IH (pre ++ [Some (clear_flip_flags (load_char b))]) suf Hls)
      as (ids & Hids & Hloop).
    { rewrite length_app. simpl in *. lia. }
    exists (clear_flip_flags (load_char b) :: ids). split; [by constructor|].
    simpl. rewrite Hid. cbn. rewrite store_middle. cbn.
    unfold int_add. rewrite int_range_ok
      by (simpl in Hmax; unfold INT_MIN, INT_MAX in *; lia). cbn.
    replace (Z.of_nat (length pre) + 1)
      with (Z.of_nat (length (pre ++ [Some (clear_flip_flags (load_char b))])))
      by (rewrite length_app; simpl; lia).
    rewrite <- app_assoc in Hloop. simpl in Hloop. rewrite Hloop.
    by rewrite <- app_assoc.
Qed.

(** What [al_get_tiles] does after its [malloc], had the block one cell
    more: for well-formed layers and a position in bounds of each, the
    block ends up holding [al_get_single_tile] of each layer, in the
    map's order, and then the terminator. *)
Lemma al_get_tiles_in_larger_block map x y :
  Forall (λ l, layer_wf l ∧ 0 ≤ x < width l ∧ 0 ≤ y < height l) (layers map) →
  g_slist_length (layers map) ≤ INT_MAX →
  ∃ ids,
    Forall2 (λ l id, al_get_single_tile l x y = Ok id) (layers map) ids ∧
    al_get_tiles_in (malloc (1 * (g_slist_length (layers map) + 1))) map x y
    = Ok ((Some <$> ids) ++ [Some TILES_END]).
Proof.
  intros Hls Hmax. unfold g_slist_length in *.
  destruct (al_get_tiles_loop_fills (layers map) x y [] [Some TILES_END] Hls)
    as (ids & Hids & Hloop); [simpl; lia|].
  exists ids. split; [done|].
  unfold al_get_tiles_in, malloc, g_slist_length.
  replace (Z.to_nat (1 * (Z.of_nat (length (layers map)) + 1)))
    with (length (layers map) + 1)%nat by lia.
  rewrite replicate_add. simpl.
  rewrite <- (length_replicate (length (layers map)) (@None Z)) at 2.
  rewrite store_middle. cbn. exact Hloop.
Qed.

End LayerProperties.

(** The theorems above at the example layers. *)

Lemma ground_wf : layer_wf ground.
Proof. layer_facts. Qed.

Lemma al_get_single_tile_clears_flip_flags_witness :
  layer_wf ground ∧
  lookup_tile true ground 1 0 = Ok (-126) ∧
  al_get_single_tile true ground 1 0 = Ok 2.
Proof.
  destruct (al_get_single_tile_clears_flip_flags true ground 1 0)
    as (b & Hcell & Hraw & Hid & _); [layer_facts..|].
  vm_compute in Hcell. injection Hcell as <-.
  split_and!; [layer_facts | exact Hraw | exact Hid].
Defined.

Lemma flip_tests_read_their_bit_witness :
  layer_wf ground ∧
  flipped_horizontally false ground 1 0 = Ok true ∧
  flipped_vertically false ground 1 0 = Ok false.
Proof.
  destruct (flip_tests_read_their_bit false ground 1 0)
    as (b & Hcell & Hh & Hv & _); [layer_facts..|].
  vm_compute in Hcell. injection Hcell as <-.
  split_and!; [layer_facts | exact Hh | exact Hv].
Defined.

Lemma decoded_id_is_flag_free_witness :
  layer_wf ground ∧
  ∃ id, al_get_single_tile true ground 0 1 = Ok id ∧
        clear_flip_flags true id = id ∧
        Z.land id FLIPPED_HORIZONTALLY_FLAG = 0.
Proof.
  destruct (decoded_id_is_flag_free true ground 0 1)
    as (id & Hid & Hh & _ & _ & Hidem & _); [layer_facts..|].
  split; [layer_facts | by exists id].
Defined.

Lemma decoded_id_is_not_terminator_witness :
  layer_wf ground ∧
  ∃ id, al_get_single_tile true ground 0 1 = Ok id ∧ id ≠ TILES_END true.
Proof.
  destruct (decoded_id_is_not_terminator true ground 0 1)
    as (id & Hid & _ & Hne & _); [layer_facts..|].
  split; [layer_facts | by exists id].
Defined.

Lemma tile_ids_round_trip_witness :
  layer_wf grid_layer ∧
  data grid_layer = store_char <$> concat example_grid ∧
  al_get_single_tile true grid_layer 1 1 = Ok 31.
Proof.
  destruct (tile_ids_round_trip true grid_layer example_grid 1 1)
    as (row & id & Hrow & Hid & Hget);
    [ layer_facts | reflexivity
    | by repeat apply Forall_cons_2
    | unfold unflagged; repeat first [apply Forall_cons_2 | apply Forall_nil_2];
      layer_facts
    | reflexivity | layer_facts | layer_facts | ].
  vm_compute in Hrow. injection Hrow as <-.
  vm_compute in Hid. injection Hid as <-.
  split_and!; [layer_facts | reflexivity | exact Hget].
Defined.

(** The failing input of C1: a map of two layers. *)
Example al_get_tiles_example :
  al_get_tiles true example_map 2 1 = UB (OutOfBounds 2 2) ∧
  al_get_tiles_in true (malloc 3) example_map 2 1
  = Ok [Some 31; Some 30; Some (-1)].
Proof. split; reflexivity. Qed.

(** ** Tiles and properties *)

Lemma string_compare_refl s : String.compare s s = Eq.
Proof.
  induction s as [|c s IH]; simpl; [done|].
  unfold Ascii.compare. by rewrite N.compare_refl.
Qed.

Lemma strcmp_zero s1 s2 : strcmp s1 s2 = 0 ↔ str_chars s1 = str_chars s2.
Proof.
  unfold strcmp. split.
  - destruct (String.compare _ _) eqn:Hcmp; try done.
    intros _. by apply String.compare_eq_iff.
  - intros ->. by rewrite string_compare_refl.
Qed.

(** The test [!strcmp(prop->name, name)]. *)
Lemma strcmp_test s1 s2 :
  negb (to_bool (strcmp s1 s2)) = bool_decide (str_chars s1 = str_chars s2).
Proof.
  unfold to_bool. rewrite negb_involutive.
  case_bool_decide as Heq.
  - apply Z.eqb_eq. by apply strcmp_zero.
  - apply Z.eqb_neq. by rewrite strcmp_zero.
Qed.

(** C5. [al_get_tile_property] on a [NULL] tile returns the default
    itself. On a tile whose property list is [before ++ prop :: after],
    with no property of the queried name in [before] and [prop] of that
    name, it returns the value of [prop], whatever [after] holds (the
    first match wins). On a tile with no property of the queried name it
    returns the default. *)
Theorem al_get_tile_property_first_match :
  (∀ name def, al_get_tile_property None name def = def) ∧
  (∀ tile name def before prop after,
     tile_properties tile = before ++ prop :: after →
     Forall (λ p, ¬ named name p) before → named name prop →
     al_get_tile_property (Some tile) name def = prop_value prop) ∧
  (∀ tile name def,
     Forall (λ p, ¬ named name p) (tile_properties tile) →
     al_get_tile_property (Some tile) name def = def).
Proof.
  split_and!.
  - done.
  - intros tile name def before prop after Hlist Hbefore Hprop.
    unfold al_get_tile_property. rewrite Hlist. clear Hlist.
    induction Hbefore as [|p before Hp _ IH]; simpl.
    + by rewrite strcmp_test, bool_decide_eq_true_2.
    + by rewrite strcmp_test, bool_decide_eq_false_2.
  - intros tile name def Hnone. simpl.
    induction Hnone as [|p l Hp _ IH]; simpl; [done|].
    by rewrite strcmp_test, bool_decide_eq_false_2.
Qed.

(** The specification's example: of two properties named "solid", the
    first one's value is returned. *)
Lemma al_get_tile_property_first_match_witness :
  al_get_tile_property (Some solid_tile) (str 100 "solid") (str 101 "no")
  = str 24 "true".
Proof.
  destruct al_get_tile_property_first_match as (_ & Hfirst & _).
  apply (Hfirst solid_tile (str 100 "solid") (str 101 "no") []
           {| prop_ptr := 22; prop_name := str 23 "solid";
              prop_value := str 24 "true" |}
           [ {| prop_ptr := 25; prop_name := str 26 "solid";
                prop_value := str 27 "false" |} ]);
    [reflexivity | constructor | reflexivity].
Defined.

(** C6. [al_get_tile_for_id] with id 0 returns [NULL] for every map,
    whatever its registry holds (a tile under key 0 included); with any
    other id it returns what the registry holds for that id, which is
    [NULL] when the id is not a key of the registry. *)
Theorem al_get_tile_for_id_spec map :
  al_get_tile_for_id map 0 = None ∧
  (∀ id, id ≠ 0 → al_get_tile_for_id map id = ht_nodes (tiles map) !! id) ∧
  (∀ id, id ∉ dom (ht_nodes (tiles map)) → al_get_tile_for_id map id = None).
Proof.
  split_and!.
  - done.
  - intros id Hid. unfold al_get_tile_for_id, g_hash_table_lookup.
    by apply Z.eqb_neq in Hid as ->.
  - intros id Hid. unfold al_get_tile_for_id, g_hash_table_lookup.
    destruct (id =? 0); [done|]. by apply not_elem_of_dom.
Qed.

Lemma al_get_tile_for_id_spec_witness :
  al_get_tile_for_id (with_nodes example_map {[ 0 := solid_tile ]}) 0 = None ∧
  al_get_tile_for_id example_map 1 = Some other_tile ∧
  al_get_tile_for_id example_map 2 = None.
Proof.
  split_and!.
  - exact (proj1 (al_get_tile_for_id_spec
                    (with_nodes example_map {[ 0 := solid_tile ]}))).
  - destruct (al_get_tile_for_id_spec example_map) as (_ & Hkey & _).
    by rewrite Hkey.
  - destruct (al_get_tile_for_id_spec example_map) as (_ & _ & Hmiss).
    apply Hmiss. vm_compute. set_solver.
Defined.

(** C9. [al_get_tile_property] and [al_get_object_property] agree: on
    [NULL] both return the default, and on a tile and an object with the
    same property list they return the same value, for every name and
    default. *)
Theorem property_lookups_agree :
  (∀ name def,
     al_get_tile_property None name def = def ∧
     al_get_object_property None name def = def) ∧
  (∀ tile object name def,
     tile_properties tile = object_properties object →
     al_get_tile_property (Some tile) name def
     = al_get_object_property (Some object) name def).
Proof.
  split; [done|].
  intros tile object name def Hsame.
  unfold al_get_tile_property, al_get_object_property. rewrite Hsame.
  induction (object_properties object) as [|p l IH]; [done|].
  by destruct (negb (to_bool (strcmp (prop_name p) name))).
Qed.

Lemma property_lookups_agree_witness :
  al_get_tile_property
    (Some {| tile_ptr := 20; tile_id := 1; tile_bitmap := 21;
             tile_properties := object_properties crate |})
    (str 100 "solid") (str 101 "no")
  = al_get_object_property (Some crate) (str 100 "solid") (str 101 "no").
Proof.
  destruct property_lookups_agree as [_ Hsame].
  by apply Hsame.
Defined.

(** ** Teardown *)

Lemma frees_skip : frees (λ h, Ok h) [].
Proof. by intros h. Qed.

Lemma frees_release p : frees (release p) [p].
Proof.
  intros h. unfold release_all. simpl. unfold and_then.
  by destruct (release p h).
Qed.

Lemma frees_seq f g l1 l2 :
  frees f l1 → frees g l2 → frees (f >> g) (l1 ++ l2).
Proof.
  intros Hf Hg h. unfold and_then. rewrite Hf. clear Hf.
  revert h. induction l1 as [|p l1 IH]; intros h; simpl.
  - apply Hg.
  - unfold release_all in *. simpl. unfold and_then.
    destruct (release p h) as [h'|e]; simpl; [apply IH|done].
Qed.

Lemma frees_cons f g p l : frees f [p] → frees g l → frees (f >> g) (p :: l).
Proof. apply (frees_seq f g [p] l). Qed.

Lemma frees_list {A} (l : list A) (free_func : A → teardown) owned :
  (∀ x, frees (free_func x) (owned x)) →
  frees (g_slist_free_full l free_func) (l ≫= owned).
Proof.
  intros Hfree. induction l as [|x l IH]; simpl.
  - apply frees_skip.
  - by apply frees_seq.
Qed.

Create HintDb teardown.
#[local] Hint Resolve frees_release frees_cons frees_seq : teardown.
#[local] Hint Unfold al_free al_destroy_bitmap : teardown.

Lemma _al_free_property_frees prop :
  frees (_al_free_property prop) (property_owned prop).
Proof. unfold _al_free_property, property_owned. auto with teardown. Qed.

#[local] Hint Resolve _al_free_property_frees : teardown.

Lemma _al_free_tile_frees tile : frees (_al_free_tile tile) (tile_owned tile).
Proof.
  unfold _al_free_tile, tile_owned.
  apply frees_seq; [apply frees_list|]; auto with teardown.
Qed.

#[local] Hint Resolve _al_free_tile_frees : teardown.

Lemma _al_free_tileset_frees tileset :
  frees (_al_free_tileset tileset) (tileset_owned tileset).
Proof.
  unfold _al_free_tileset, tileset_owned.
  do 2 (apply frees_cons; [auto with teardown|]).
  apply frees_seq; [apply frees_list|]; auto with teardown.
Qed.

Lemma _al_free_layer_frees layer :
  frees (_al_free_layer layer) (layer_owned layer).
Proof. unfold _al_free_layer, layer_owned. auto with teardown. Qed.

Lemma _al_free_object_frees object :
  frees (_al_free_object object) (object_owned object).
Proof.
  unfold _al_free_object, object_owned.
  apply frees_seq; [apply frees_list|]; auto with teardown.
Qed.

Lemma _al_free_object_group_frees group :
  frees (_al_free_object_group group) (group_owned group).
Proof. unfold _al_free_object_group, group_owned. auto with teardown. Qed.

(** The last reference to a table without a value-destroy notifier:
    the table is released, and none of its values. *)
Lemma g_hash_table_unref_frees t :
  ht_ref_count t = 1%nat → ht_value_destroy_func t = None →
  frees (g_hash_table_unref t) [ht_ptr t].
Proof.
  intros Hcount Hdestroy. unfold g_hash_table_unref.
  rewrite Hcount, Hdestroy.
  apply (frees_seq _ _ [] [ht_ptr t]); [apply frees_skip | apply frees_release].
Qed.

#[local] Hint Resolve _al_free_tileset_frees _al_free_layer_frees
  _al_free_object_frees _al_free_object_group_frees : teardown.

(** The releases of [al_free_map] are the owned addresses of the map, in
    order. *)
Lemma al_free_map_frees map :
  ht_ref_count (tiles map) = 1%nat →
  ht_value_destroy_func (tiles map) = None →
  frees (al_free_map map) (map_owned map).
Proof.
  intros Hcount Hdestroy. unfold al_free_map, map_owned.
  apply frees_cons; [auto with teardown|].
  do 4 (apply frees_seq; [apply frees_list; auto with teardown|]).
  apply frees_cons; [by apply g_hash_table_unref_frees|].
  auto with teardown.
Qed.

(** Releasing distinct live addresses, one after the other, is defined
    and leaves the heap without them. *)
Lemma release_all_ok l : ∀ h,
  NoDup (non_null l) → Forall (λ p, p ∈ h) (non_null l) →
  release_all l h = Ok (h ∖ list_to_set (non_null l)).
Proof.
  unfold release_all, non_null.
  induction l as [|p l IH]; intros h Hdup Hlive; simpl.
  - f_equal. set_solver.
  - unfold and_then, release.
    destruct (decide (p = NULL)) as [->|Hp].
    + rewrite bool_decide_eq_true_2 by done. simpl.
      rewrite filter_cons_False in * by naive_solver. by apply IH.
    + rewrite bool_decide_eq_false_2 by done.
      rewrite filter_cons_True in * by done.
      apply NoDup_cons in Hdup as [Hfresh Hdup].
      apply Forall_cons in Hlive as [Hp_live Hlive].
      rewrite bool_decide_eq_true_2 by done. simpl.
      rewrite IH; [f_equal; set_solver|done|].
      rewrite Forall_forall in *. intros q Hq.
      apply elem_of_difference. split; [by apply Hlive|].
      rewrite elem_of_singleton. by intros ->.
Qed.

(** C2. Let the map be well-formed in heap [h]: its owned addresses are
    pairwise distinct and live, and its registry is its own and has no
    value-destroy notifier. Then [al_free_map] is defined: no address is
    released twice or when not live. Its releases are the owned addresses
    of the map in order, so each non-[NULL] owned address, the address of
    every tile of every tileset among them, is live before and released
    after, and every address the map does not own is as it was. The
    entries of the registry play no part: with any other entries in the
    registry the result is the same. *)
Theorem al_free_map_releases_each_once map h :
  map_wf map h →
  ∃ h',
    al_free_map map h = Ok h' ∧
    al_free_map map h = release_all (map_owned map) h ∧
    (∀ p, p ∈ map_owned map → p ≠ NULL → p ∈ h ∧ p ∉ h') ∧
    (∀ p, p ∉ map_owned map → p ∈ h' ↔ p ∈ h) ∧
    (∀ tileset tile,
       tileset ∈ tilesets map → tile ∈ tileset_tiles tileset →
       tile_ptr tile ∈ map_owned map) ∧
    (∀ nodes, al_free_map (with_nodes map nodes) h = Ok h').
Proof.
  intros (Hdup & Hlive & Hcount & Hdestroy).
  pose proof (al_free_map_frees map Hcount Hdestroy h) as Hfrees.
  pose proof (release_all_ok _ h Hdup Hlive) as Hok.
  exists (h ∖ list_to_set (non_null (map_owned map))).
  assert (Hnn : ∀ p,
    p ∈ non_null (map_owned map) ↔ p ∈ map_owned map ∧ p ≠ NULL).
  { intros p. unfold non_null. rewrite list_elem_of_filter. naive_solver. }
  split_and!.
  - by rewrite Hfrees.
  - done.
  - intros p Hp Hnull. rewrite Forall_forall in Hlive.
    split; [apply Hlive; by apply Hnn|].
    rewrite elem_of_difference, elem_of_list_to_set. naive_solver.
  - intros p Hp. rewrite elem_of_difference, elem_of_list_to_set. naive_solver.
  - intros tileset tile Hts Htile. unfold map_owned, tileset_owned, tile_owned.
    rewrite !elem_of_app, !list_elem_of_bind.
    right. left. exists tileset. split; [|done].
    rewrite !elem_of_app, !list_elem_of_bind.
    right. left. exists tile. split; [|done]. set_solver.
  - intros nodes.
    rewrite (al_free_map_frees (with_nodes map nodes) Hcount Hdestroy h).
    exact Hok.
Qed.

Lemma example_map_wf : map_wf example_map example_heap.
Proof.
  split_and!; try reflexivity.
  - apply (bool_decide_unpack _). by vm_compute.
  - apply Forall_forall. intros p Hp. unfold example_heap. set_solver.
Qed.

(** Two tilesets of one tile each, both tiles of id 1 and the second one
    in the registry: teardown is defined, both tiles (addresses 20 and
    30) are released, and the block that is not the map's (address 99)
    stays. *)
Lemma al_free_map_releases_each_once_witness :
  map_wf example_map example_heap ∧
  ∃ h', al_free_map example_map example_heap = Ok h' ∧
        20%N ∉ h' ∧ 30%N ∉ h' ∧ 99%N ∈ h'.
Proof.
  split; [exact example_map_wf|].
  destruct (al_free_map_releases_each_once example_map example_heap
              example_map_wf) as (h' & Hrun & _ & Hgone & Hkept & _).
  exists h'. split_and!.
  - exact Hrun.
  - apply Hgone; [|done]. apply (bool_decide_unpack _). by vm_compute.
  - apply Hgone; [|done]. apply (bool_decide_unpack _). by vm_compute.
  - apply Hkept.
    + apply (bool_decide_unpack _). by vm_compute.
    + unfold example_heap. set_solver.
Defined.

(** Had the registry a value-destroy notifier that frees tiles, the tile
    it shares with the second tileset would be released twice. *)
Example al_free_map_owning_registry :
  al_free_map (example_map_with (registry (Some _al_free_tile))) example_heap
  = UB (InvalidFree 30).
Proof. by vm_compute. Qed.

(** * Further properties of map.c *)

(** ** Reading cells *)

Section LayerAccess.

Variable char_is_signed : bool.

Local Abbreviation load_char := (load_char char_is_signed).
Local Abbreviation lookup_tile := (lookup_tile char_is_signed).
Local Abbreviation clear_flip_flags := (clear_flip_flags char_is_signed).
Local Abbreviation al_get_single_tile := (al_get_single_tile char_is_signed).
Local Abbreviation flipped_horizontally :=
  (flipped_horizontally char_is_signed).
Local Abbreviation flipped_vertically := (flipped_vertically char_is_signed).
Local Abbreviation TILES_END := (TILES_END char_is_signed).
Local Abbreviation al_get_tiles_in := (al_get_tiles_in char_is_signed).

(** The three accessors are [lookup_tile] followed by a function of the
    [char] read. *)
Lemma accessors_of_lookup layer x y layer' x' y' :
  lookup_tile layer x y = lookup_tile layer' x' y' →
  al_get_single_tile layer x y = al_get_single_tile layer' x' y' ∧
  flipped_horizontally layer x y = flipped_horizontally layer' x' y' ∧
  flipped_vertically layer x y = flipped_vertically layer' x' y'.
Proof.
  intros Heq.
  unfold al_get_single_tile, flipped_horizontally, flipped_vertically.
  by rewrite Heq.
Qed.

(** X1. [lookup_tile] checks no coordinate: it reads the cell at the
    linear index [x + y * width]. In a well-formed layer, an [x] that
    runs past or before its row reads the cell of another row: for (x, y)
    in bounds and any row [y'] of the layer, position
    [(x + (y - y') * width, y')] reads the same cell as (x, y), and so do
    the three accessors built on [lookup_tile]. *)
Theorem lookup_tile_wraps_rows layer x y y' :
  layer_wf layer →
  0 ≤ x < width layer → 0 ≤ y < height layer → 0 ≤ y' < height layer →
  lookup_tile layer (x + (y - y') * width layer) y' = lookup_tile layer x y ∧
  al_get_single_tile layer (x + (y - y') * width layer) y'
  = al_get_single_tile layer x y ∧
  flipped_horizontally layer (x + (y - y') * width layer) y'
  = flipped_horizontally layer x y ∧
  flipped_vertically layer (x + (y - y') * width layer) y'
  = flipped_vertically layer x y.
Proof.
  intros (Hw & Hh & Hlen & Hmax) Hx Hy Hy'.
  assert (Hread : lookup_tile layer (x + (y - y') * width layer) y'
                  = lookup_tile layer x y).
  { unfold lookup_tile, int_mul, int_add.
    assert (0 ≤ y * width layer ≤ (height layer - 1) * width layer) by nia.
    assert (0 ≤ y' * width layer ≤ (height layer - 1) * width layer) by nia.
    rewrite !int_range_ok by (unfold INT_MIN, INT_MAX in *; nia). cbn.
    replace (x + (y - y') * width layer + y' * width layer)
      with (x + y * width layer) by lia.
    done. }
  split; [done|]. by apply accessors_of_lookup.
Qed.

(** X2. In a well-formed layer, with [x] inside a row and [y] not a row
    of the layer (negative, or [height] and beyond), [lookup_tile] is
    undefined (the index is outside [data], or the product overflows),
    and [al_get_single_tile], [flipped_horizontally] and
    [flipped_vertically] are undefined with it. *)
Theorem lookup_tile_outside_rows layer x y :
  layer_wf layer →
  0 ≤ x < width layer → ¬ (0 ≤ y < height layer) →
  ∃ e, lookup_tile layer x y = UB e ∧
       al_get_single_tile layer x y = UB e ∧
       flipped_horizontally layer x y = UB e ∧
       flipped_vertically layer x y = UB e.
Proof.
  intros (Hw & Hh & Hlen & Hmax) Hx Hy.
  assert (Hread : ∃ e, lookup_tile layer x y = UB e).
  { unfold lookup_tile, int_mul, int_add, int_range.
    case_bool_decide; cbn; [|by eexists].
    case_bool_decide; cbn; [|by eexists].
    case_bool_decide; cbn; [|by eexists].
    destruct (data layer !! Z.to_nat (x + y * width layer)) as [b|] eqn:Hb;
      [|by eexists].
    apply lookup_lt_Some in Hb. nia. }
  destruct Hread as [e He]. exists e.
  unfold al_get_single_tile, flipped_horizontally, flipped_vertically.
  by rewrite He.
Qed.

(** A byte is its low five bits and its three flag bits. *)
Lemma byte_fields b :
  byte_val b
  = Z.land (byte_val b) 0x1F
    + FLIPPED_HORIZONTALLY_FLAG * Z.b2z (Z.testbit (byte_val b) 7)
    + FLIPPED_VERTICALLY_FLAG * Z.b2z (Z.testbit (byte_val b) 6)
    + FLIPPED_DIAGONALLY_FLAG * Z.b2z (Z.testbit (byte_val b) 5).
Proof. by destruct b. Qed.

(** The three accessors as functions of the stored byte. *)
Lemma accessors_of_cell layer x y b :
  layer_wf layer → 0 ≤ x < width layer → 0 ≤ y < height layer →
  data layer !! cell_index layer x y = Some b →
  al_get_single_tile layer x y = Ok (Z.land (byte_val b) 0x1F) ∧
  flipped_horizontally layer x y = Ok (Z.testbit (byte_val b) 7) ∧
  flipped_vertically layer x y = Ok (Z.testbit (byte_val b) 6).
Proof.
  intros Hwf Hx Hy Hcell.
  destruct (lookup_tile_in_bounds char_is_signed layer x y Hwf Hx Hy)
    as (b' & Hcell' & Hraw).
  assert (b' = b) as -> by congruence.
  destruct (clear_flip_flags_byte char_is_signed b) as [Hmask _].
  destruct (flip_tests_byte char_is_signed b) as [Hh Hv].
  unfold al_get_single_tile, flipped_horizontally, flipped_vertically.
  rewrite Hraw. cbn. by rewrite Hmask, Hh, Hv.
Qed.

(** X3. The accessors lose one bit only. In a well-formed layer, at an
    in-bounds (x, y), the stored byte is the id of [al_get_single_tile],
    plus 0x80 when [flipped_horizontally], plus 0x40 when
    [flipped_vertically], plus 0x20 when bit 5 of the byte (the diagonal
    flag, which no function reads) is set. *)
Theorem accessors_rebuild_byte layer x y :
  layer_wf layer → 0 ≤ x < width layer → 0 ≤ y < height layer →
  ∃ b id h v,
    data layer !! cell_index layer x y = Some b ∧
    al_get_single_tile layer x y = Ok id ∧
    flipped_horizontally layer x y = Ok h ∧
    flipped_vertically layer x y = Ok v ∧
    byte_val b
    = id + FLIPPED_HORIZONTALLY_FLAG * Z.b2z h
         + FLIPPED_VERTICALLY_FLAG * Z.b2z v
         + FLIPPED_DIAGONALLY_FLAG * Z.b2z (Z.testbit (byte_val b) 5).
Proof.
  intros Hwf Hx Hy.
  destruct (lookup_tile_in_bounds char_is_signed layer x y Hwf Hx Hy)
    as (b & Hcell & _).
  destruct (accessors_of_cell layer x y b Hwf Hx Hy Hcell) as (Hid & Hh & Hv).
  exists b, (Z.land (byte_val b) 0x1F), (Z.testbit (byte_val b) 7),
    (Z.testbit (byte_val b) 6).
  split_and!; try done. apply byte_fields.
Qed.

(** X4. The diagonal flag is cleared by [al_get_single_tile] and read by
    nothing: two in-bounds cells of well-formed layers whose bytes differ
    in bit 0x20 only get the same id, the same [flipped_horizontally] and
    the same [flipped_vertically]. *)
Theorem diagonal_flag_is_not_read layer x y layer' x' y' b b' :
  layer_wf layer → 0 ≤ x < width layer → 0 ≤ y < height layer →
  layer_wf layer' → 0 ≤ x' < width layer' → 0 ≤ y' < height layer' →
  data layer !! cell_index layer x y = Some b →
  data layer' !! cell_index layer' x' y' = Some b' →
  byte_val b' = Z.lxor (byte_val b) FLIPPED_DIAGONALLY_FLAG →
  al_get_single_tile layer' x' y' = al_get_single_tile layer x y ∧
  flipped_horizontally layer' x' y' = flipped_horizontally layer x y ∧
  flipped_vertically layer' x' y' = flipped_vertically layer x y.
Proof.
  intros Hwf Hx Hy Hwf' Hx' Hy' Hcell Hcell' Hdiag.
  destruct (accessors_of_cell layer x y b Hwf Hx Hy Hcell) as (-> & -> & ->).
  destruct (accessors_of_cell layer' x' y' b' Hwf' Hx' Hy' Hcell')
    as (-> & -> & ->).
  rewrite Hdiag. clear. by destruct b.
Qed.

(** X5. [al_get_single_tile] followed by [al_get_tile_for_id]. In a
    well-formed layer, at an in-bounds (x, y), the id is the low five
    bits of the stored byte, between 0 and 31; the tile it resolves to is
    [NULL] when those bits are zero (whatever the flag bits and the
    registry) and the registry's entry for them otherwise. Entries of the
    registry under other keys are not reached from layer data. *)
Theorem cell_resolves_by_low_bits map layer x y :
  layer_wf layer → 0 ≤ x < width layer → 0 ≤ y < height layer →
  ∃ b id,
    data layer !! cell_index layer x y = Some b ∧
    al_get_single_tile layer x y = Ok id ∧
    id = Z.land (byte_val b) 0x1F ∧ 0 ≤ id ≤ 31 ∧
    al_get_tile_for_id map id
    = (if bool_decide (id = 0) then None else ht_nodes (tiles map) !! id).
Proof.
  intros Hwf Hx Hy.
  destruct (lookup_tile_in_bounds char_is_signed layer x y Hwf Hx Hy)
    as (b & Hcell & _).
  destruct (accessors_of_cell layer x y b Hwf Hx Hy Hcell) as (Hid & _).
  destruct (masked_byte_flag_free char_is_signed b) as (Hrange & _).
  exists b, (Z.land (byte_val b) 0x1F). split_and!; try done; try lia.
  unfold al_get_tile_for_id, g_hash_table_lookup.
  case_bool_decide as Hzero.
  - by rewrite Hzero.
  - by apply Z.eqb_neq in Hzero as ->.
Qed.

End LayerAccess.

Lemma sky_wf : layer_wf sky.
Proof. layer_facts. Qed.

(** Position (4, 0) of the 3 x 2 layer [ground] reads cell (1, 1). *)
Lemma lookup_tile_wraps_rows_witness :
  layer_wf ground ∧
  lookup_tile true ground 4 0 = lookup_tile true ground 1 1 ∧
  al_get_single_tile true ground 4 0 = al_get_single_tile true ground 1 1.
Proof.
  destruct (lookup_tile_wraps_rows true ground 1 1 0)
    as (Hraw & Hid & _); [layer_facts..|].
  split_and!; [layer_facts | exact Hraw | exact Hid].
Defined.

(** Row 2 of a layer of two rows. *)
Lemma lookup_tile_outside_rows_witness :
  layer_wf ground ∧ ¬ (0 ≤ 2 < height ground) ∧
  ∃ e, lookup_tile false ground 1 2 = UB e ∧
       al_get_single_tile false ground 1 2 = UB e.
Proof.
  destruct (lookup_tile_outside_rows false ground 1 2)
    as (e & Hraw & Hid & _); [layer_facts | layer_facts | cbn; lia |].
  split_and!; [layer_facts | cbn; lia | by exists e].
Defined.

(** Cell (0, 1) of [ground] holds 0xFF: id 31 and all three flags. *)
Lemma accessors_rebuild_byte_witness :
  layer_wf ground ∧
  ∃ id h v,
    al_get_single_tile true ground 0 1 = Ok id ∧
    flipped_horizontally true ground 0 1 = Ok h ∧
    flipped_vertically true ground 0 1 = Ok v ∧
    255 = id + 0x80 * Z.b2z h + 0x40 * Z.b2z v + 0x20 * 1.
Proof.
  destruct (accessors_rebuild_byte true ground 0 1)
    as (b & id & h & v & Hcell & Hid & Hh & Hv & Hbyte); [layer_facts..|].
  vm_compute in Hcell. injection Hcell as <-.
  split; [layer_facts|]. by exists id, h, v.
Defined.

(** Cell (0, 0) of [ground] holds 0x01; a cell holding 0x21 reads the
    same. *)
Lemma diagonal_flag_is_not_read_witness :
  let diagonal :=
    {| layer_ptr := 90; layer_name := str 91 "diagonal";
       width := 1; height := 1; data_ptr := 92; data := [x21] |} in
  layer_wf diagonal ∧
  byte_val x21 = Z.lxor (byte_val x01) FLIPPED_DIAGONALLY_FLAG ∧
  al_get_single_tile true diagonal 0 0 = al_get_single_tile true ground 0 0 ∧
  flipped_horizontally true diagonal 0 0
  = flipped_horizontally true ground 0 0 ∧
  flipped_vertically true diagonal 0 0 = flipped_vertically true ground 0 0.
Proof.
  intros diagonal.
  destruct (diagonal_flag_is_not_read true ground 0 0 diagonal 0 0 x01 x21)
    as (Hid & Hh & Hv); [layer_facts..| reflexivity | reflexivity | reflexivity |].
  split_and!; [layer_facts | reflexivity | exact Hid | exact Hh | exact Hv].
Defined.

(** Cell (0, 0) of [ground] holds 0x01 and resolves to the registry's
    tile of id 1. *)
Lemma cell_resolves_by_low_bits_witness :
  layer_wf ground ∧
  ∃ id, al_get_single_tile true ground 0 0 = Ok id ∧
        al_get_tile_for_id example_map id = Some other_tile.
Proof.
  destruct (cell_resolves_by_low_bits true example_map ground 0 0)
    as (b & id & Hcell & Hid & -> & _ & Htile); [layer_facts..|].
  vm_compute in Hcell. injection Hcell as <-.
  split; [layer_facts|]. eexists. split; [exact Hid | exact Htile].
Defined.

(** X6. For every layer and position, in bounds or not,
    [al_get_single_tile], [flipped_horizontally] and [flipped_vertically]
    give the same result where plain [char] is signed and where it is
    unsigned. ([lookup_tile] does not: a byte 0x82 reads as -126 or as
    130.) *)
Theorem decoding_ignores_char_signedness layer x y :
  al_get_single_tile true layer x y = al_get_single_tile false layer x y ∧
  flipped_horizontally true layer x y = flipped_horizontally false layer x y ∧
  flipped_vertically true layer x y = flipped_vertically false layer x y.
Proof.
  unfold al_get_single_tile, flipped_horizontally, flipped_vertically,
    lookup_tile.
  destruct (int_mul y (width layer)) as [row|e]; cbn; [|done].
  destruct (int_add x row) as [i|e]; cbn; [|done].
  case_bool_decide; [|done].
  destruct (data layer !! Z.to_nat i) as [b|]; [|done]. cbn.
  by destruct b.
Qed.

(** ** Property lists *)

(** X7. Lookup in a concatenated property list: if the properties of
    [tile] are those of [front] followed by those of [back], then
    looking a name up in [tile] is looking it up in [front] with, as the
    default, the result of looking it up in [back]. *)
Theorem al_get_tile_property_app tile front back name def :
  tile_properties tile = tile_properties front ++ tile_properties back →
  al_get_tile_property (Some tile) name def
  = al_get_tile_property (Some front) name
      (al_get_tile_property (Some back) name def).
Proof.
  intros Hlist. unfold al_get_tile_property. rewrite Hlist. clear Hlist.
  induction (tile_properties front) as [|p l IH]; [done|].
  simpl. by destruct (negb (to_bool (strcmp (prop_name p) name))).
Qed.

(** The tile of the example, split after its first property. *)
Lemma al_get_tile_property_app_witness :
  al_get_tile_property (Some solid_tile) (str 100 "solid") (str 101 "no")
  = al_get_tile_property
      (Some {| tile_ptr := 20; tile_id := 1; tile_bitmap := 21;
               tile_properties := take 1 (tile_properties solid_tile) |})
      (str 100 "solid")
      (al_get_tile_property
         (Some {| tile_ptr := 20; tile_id := 1; tile_bitmap := 21;
                  tile_properties := drop 1 (tile_properties solid_tile) |})
         (str 100 "solid") (str 101 "no")).
Proof. by apply al_get_tile_property_app. Defined.

(** X8. The same for objects: if the properties of [object] are those
    of [front] followed by those of [back], then
    [al_get_object_property] on [object] is [al_get_object_property] on
    [front] with, as the default, its result on [back]. *)
Theorem al_get_object_property_app object front back name def :
  object_properties object
  = object_properties front ++ object_properties back →
  al_get_object_property (Some object) name def
  = al_get_object_property (Some front) name
      (al_get_object_property (Some back) name def).
Proof.
  intros Hlist. unfold al_get_object_property. rewrite Hlist. clear Hlist.
  induction (object_properties front) as [|p l IH]; [done|].
  simpl. by destruct (negb (to_bool (strcmp (prop_name p) name))).
Qed.

Lemma al_get_object_property_app_witness :
  al_get_object_property (Some crate) (str 100 "solid") (str 101 "no")
  = al_get_object_property
      (Some {| object_ptr := 60; object_name := str 61 "crate";
               object_type := str 62 "box";
               object_properties := take 1 (object_properties crate) |})
      (str 100 "solid")
      (al_get_object_property
         (Some {| object_ptr := 60; object_name := str 61 "crate";
                  object_type := str 62 "box";
                  object_properties := drop 1 (object_properties crate) |})
         (str 100 "solid") (str 101 "no")).
Proof. by apply al_get_object_property_app. Defined.

(** X9. Both property lookups compare names by their characters, not
    by address: two names with the same characters give the same result.
    And the result is never made up: it is the default, or the value of
    a property of the list that has the queried name. *)
Theorem property_lookup_by_characters :
  (∀ tile name name' def,
     str_chars name = str_chars name' →
     al_get_tile_property tile name def = al_get_tile_property tile name' def) ∧
  (∀ object name name' def,
     str_chars name = str_chars name' →
     al_get_object_property object name def
     = al_get_object_property object name' def) ∧
  (∀ tile name def,
     al_get_tile_property (Some tile) name def = def ∨
     ∃ prop, prop ∈ tile_properties tile ∧ named name prop ∧
             al_get_tile_property (Some tile) name def = prop_value prop) ∧
  (∀ object name def,
     al_get_object_property (Some object) name def = def ∨
     ∃ prop, prop ∈ object_properties object ∧ named name prop ∧
             al_get_object_property (Some object) name def = prop_value prop).
Proof.
  split_and!.
  - intros [tile|] name name' def Hname; [|done]. simpl.
    induction (tile_properties tile) as [|p l IH]; [done|].
    rewrite !strcmp_test. unfold named in *. rewrite Hname.
    by case_bool_decide.
  - intros [object|] name name' def Hname; [|done]. simpl.
    induction (object_properties object) as [|p l IH]; [done|].
    rewrite !strcmp_test. rewrite Hname. by case_bool_decide.
  - intros tile name def. simpl.
    induction (tile_properties tile) as [|p l IH]; [by left|].
    rewrite strcmp_test. case_bool_decide as Hp.
    + right. exists p. split_and!; [by left|done|done].
    + destruct IH as [IH|(q & Hq & Hnamed & IH)]; [by left|].
      right. exists q. split_and!; [by right|done|done].
  - intros object name def. simpl.
    induction (object_properties object) as [|p l IH]; [by left|].
    rewrite strcmp_test. case_bool_decide as Hp.
    + right. exists p. split_and!; [by left|done|done].
    + destruct IH as [IH|(q & Hq & Hnamed & IH)]; [by left|].
      right. exists q. split_and!; [by right|done|done].
Qed.

(** ** Teardown, further *)

(** A defined sequence of releases was of distinct live addresses. *)
Lemma release_all_inv l : ∀ h h',
  release_all l h = Ok h' →
  NoDup (non_null l) ∧ Forall (λ p, p ∈ h) (non_null l) ∧
  h' = h ∖ list_to_set (non_null l).
Proof.
  unfold release_all, non_null.
  induction l as [|p l IH]; intros h h' Hrun; simpl in Hrun.
  - injection Hrun as <-. split_and!; [constructor|constructor|set_solver].
  - unfold and_then, release in Hrun.
    destruct (decide (p = NULL)) as [->|Hp].
    + rewrite bool_decide_eq_true_2 in Hrun by done. simpl in Hrun.
      rewrite filter_cons_False by naive_solver. by apply IH.
    + rewrite bool_decide_eq_false_2 in Hrun by done.
      rewrite filter_cons_True by done.
      case_bool_decide as Hlive; [|done]. simpl in Hrun.
      destruct (IH _ _ Hrun) as (Hdup & Hrest & ->).
      rewrite Forall_forall in Hrest.
      split_and!.
      * apply NoDup_cons. split; [|done].
        intros Hin. apply Hrest in Hin. set_solver.
      * apply Forall_cons. split; [done|].
        apply Forall_forall. intros q Hq. apply Hrest in Hq. set_solver.
      * set_solver.
Qed.

(** A sequence of releases fails only at a release of an address that
    is not live. *)
Lemma release_all_fails l : ∀ h e,
  release_all l h = UB e → ∃ p, e = InvalidFree p ∧ p ∈ l ∧ p ≠ NULL.
Proof.
  unfold release_all.
  induction l as [|p l IH]; intros h e Hrun; simpl in Hrun; [done|].
  unfold and_then, release in Hrun.
  case_bool_decide as Hnull; simpl in Hrun.
  - destruct (IH _ _ Hrun) as (q & -> & Hq & Hnn).
    exists q. split_and!; [done|by right|done].
  - case_bool_decide as Hlive; simpl in Hrun.
    + destruct (IH _ _ Hrun) as (q & -> & Hq & Hnn).
      exists q. split_and!; [done|by right|done].
    + injection Hrun as <-. exists p. split_and!; [done|by left|done].
Qed.

(** X10. The exact precondition of teardown. For a map whose registry
    has one reference and no value-destroy notifier, [al_free_map] on
    heap [h] is defined with result [h'] if and only if the non-[NULL]
    addresses the map owns are pairwise distinct and all live in [h],
    and [h'] is [h] without them. So a tile, string or bitmap shared by
    two owners, or already released, makes teardown undefined. *)
Theorem al_free_map_defined_iff map h h' :
  ht_ref_count (tiles map) = 1%nat →
  ht_value_destroy_func (tiles map) = None →
  al_free_map map h = Ok h' ↔
  NoDup (non_null (map_owned map)) ∧
  Forall (λ p, p ∈ h) (non_null (map_owned map)) ∧
  h' = h ∖ list_to_set (non_null (map_owned map)).
Proof.
  intros Hcount Hdestroy.
  rewrite (al_free_map_frees map Hcount Hdestroy h). split.
  - apply release_all_inv.
  - intros (Hdup & Hlive & ->). by apply release_all_ok.
Qed.

Lemma al_free_map_defined_iff_witness :
  al_free_map example_map example_heap = Ok {[ 99%N ]} ↔
  NoDup (non_null (map_owned example_map)) ∧
  Forall (λ p, p ∈ example_heap) (non_null (map_owned example_map)) ∧
  {[ 99%N ]} = example_heap ∖ list_to_set (non_null (map_owned example_map)).
Proof. by apply al_free_map_defined_iff. Defined.

(** A step that performs the releases [l] is defined exactly on the
    heaps where the non-[NULL] addresses of [l] are distinct and live. *)
Lemma frees_defined_iff f l h h' :
  frees f l →
  f h = Ok h' ↔
  NoDup (non_null l) ∧ Forall (λ p, p ∈ h) (non_null l) ∧
  h' = h ∖ list_to_set (non_null l).
Proof.
  intros Hfrees. rewrite Hfrees. split.
  - apply release_all_inv.
  - intros (Hdup & Hlive & ->). by apply release_all_ok.
Qed.

(** X11. Each helper of teardown releases its own struct and nothing
    else: [_al_free_property], [_al_free_tile], [_al_free_tileset],
    [_al_free_layer], [_al_free_object] and [_al_free_object_group] are
    defined exactly when the non-[NULL] addresses the struct owns (its
    strings, bitmap, nested properties or tiles, and itself) are
    pairwise distinct and live, and the heap they leave is the heap
    without those addresses. *)
Theorem teardown_helpers_release_their_struct h h' :
  (∀ prop, _al_free_property prop h = Ok h' ↔
     NoDup (non_null (property_owned prop)) ∧
     Forall (λ p, p ∈ h) (non_null (property_owned prop)) ∧
     h' = h ∖ list_to_set (non_null (property_owned prop))) ∧
  (∀ tile, _al_free_tile tile h = Ok h' ↔
     NoDup (non_null (tile_owned tile)) ∧
     Forall (λ p, p ∈ h) (non_null (tile_owned tile)) ∧
     h' = h ∖ list_to_set (non_null (tile_owned tile))) ∧
  (∀ tileset, _al_free_tileset tileset h = Ok h' ↔
     NoDup (non_null (tileset_owned tileset)) ∧
     Forall (λ p, p ∈ h) (non_null (tileset_owned tileset)) ∧
     h' = h ∖ list_to_set (non_null (tileset_owned tileset))) ∧
  (∀ layer, _al_free_layer layer h = Ok h' ↔
     NoDup (non_null (layer_owned layer)) ∧
     Forall (λ p, p ∈ h) (non_null (layer_owned layer)) ∧
     h' = h ∖ list_to_set (non_null (layer_owned layer))) ∧
  (∀ object, _al_free_object object h = Ok h' ↔
     NoDup (non_null (object_owned object)) ∧
     Forall (λ p, p ∈ h) (non_null (object_owned object)) ∧
     h' = h ∖ list_to_set (non_null (object_owned object))) ∧
  (∀ group, _al_free_object_group group h = Ok h' ↔
     NoDup (non_null (group_owned group)) ∧
     Forall (λ p, p ∈ h) (non_null (group_owned group)) ∧
     h' = h ∖ list_to_set (non_null (group_owned group))).
Proof.
  split_and!; intros s; apply frees_defined_iff; auto with teardown.
Qed.

(** X12. Freeing a map twice is undefined: after a defined
    [al_free_map] of a well-formed map, a second [al_free_map] of the
    same map, on the heap the first one left, releases an owned address
    that is no longer live. *)
Theorem al_free_map_twice map h h' :
  map_wf map h → map_ptr map ≠ NULL →
  al_free_map map h = Ok h' →
  ∃ p, p ∈ map_owned map ∧ al_free_map map h' = UB (InvalidFree p).
Proof.
  intros (Hdup & Hlive & Hcount & Hdestroy) Hmap.
  rewrite !(al_free_map_frees map Hcount Hdestroy). intros Hrun.
  apply release_all_inv in Hrun as (_ & _ & ->).
  destruct (release_all (map_owned map)
              (h ∖ list_to_set (non_null (map_owned map)))) as [h''|e] eqn:Hagain.
  - apply release_all_inv in Hagain as (_ & Hlive' & _).
    rewrite Forall_forall in Hlive'.
    assert (Hin : map_ptr map ∈ non_null (map_owned map)).
    { unfold non_null. apply list_elem_of_filter. split; [done|].
      unfold map_owned. rewrite !elem_of_app. do 5 right. set_solver. }
    specialize (Hlive' _ Hin). set_solver.
  - destruct (release_all_fails _ _ _ Hagain) as (p & -> & Hp & _).
    by exists p.
Qed.

Lemma al_free_map_twice_witness :
  map_wf example_map example_heap ∧
  al_free_map example_map example_heap = Ok {[ 99%N ]} ∧
  ∃ p, p ∈ map_owned example_map ∧
       al_free_map example_map {[ 99%N ]} = UB (InvalidFree p).
Proof.
  assert (Hrun : al_free_map example_map example_heap = Ok {[ 99%N ]})
    by (by vm_compute).
  split_and!; [exact example_map_wf | exact Hrun |].
  by apply (al_free_map_twice example_map example_heap {[ 99%N ]}
              example_map_wf).
Defined.

(** X13. Had the registry [_al_free_tile] as its value-destroy notifier,
    teardown would be undefined whenever the registry holds, under any
    key, a tile at the (non-[NULL]) address of a tile of one of the
    map's tilesets, whatever the heap: the tile would be released with
    its tileset and again with the registry. *)
Theorem al_free_map_owning_registry_double_free map tileset tile key shared h :
  ht_ref_count (tiles map) = 1%nat →
  ht_value_destroy_func (tiles map) = Some _al_free_tile →
  tileset ∈ tilesets map → tile ∈ tileset_tiles tileset →
  ht_nodes (tiles map) !! key = Some shared →
  tile_ptr shared = tile_ptr tile → tile_ptr tile ≠ NULL →
  ∃ p, al_free_map map h = UB (InvalidFree p).
Proof.
  intros Hcount Hdestroy Hts Htile Hkey Hshared Hnn.
  set (values := (map_to_list (ht_nodes (tiles map))).*2).
  set (rest := (layers map ≫= layer_owned) ++ (objects map ≫= object_owned)
               ++ (object_groups map ≫= group_owned)
               ++ ((values ≫= tile_owned) ++ [ht_ptr (tiles map)])
               ++ [backbuffer map; map_ptr map]).
  assert (Hfrees : frees (al_free_map map)
            (str_ptr (orientation map)
             :: (tilesets map ≫= tileset_owned) ++ rest)).
  { unfold al_free_map, rest.
    apply frees_cons; [apply frees_release|].
    apply frees_seq; [apply frees_list, _al_free_tileset_frees|].
    apply frees_seq; [apply frees_list, _al_free_layer_frees|].
    apply frees_seq; [apply frees_list, _al_free_object_frees|].
    apply frees_seq; [apply frees_list, _al_free_object_group_frees|].
    apply frees_seq.
    - unfold g_hash_table_unref. rewrite Hcount, Hdestroy.
      apply frees_seq; [apply frees_list, _al_free_tile_frees|].
      apply frees_release.
    - apply frees_cons; apply frees_release. }
  assert (Hfirst : tile_ptr tile ∈ tilesets map ≫= tileset_owned).
  { rewrite list_elem_of_bind. exists tileset. split; [|done].
    unfold tileset_owned. rewrite !elem_of_app, list_elem_of_bind.
    right. left. exists tile. split; [|done].
    unfold tile_owned. set_solver. }
  assert (Hsecond : tile_ptr tile ∈ rest).
  { unfold rest. rewrite !elem_of_app, !list_elem_of_bind.
    do 3 right. left. left. exists shared. split.
    - unfold tile_owned. rewrite <- Hshared. set_solver.
    - unfold values. rewrite list_elem_of_fmap. exists (key, shared).
      split; [done|]. by apply elem_of_map_to_list. }
  rewrite Hfrees.
  destruct (release_all _ h) as [h'|e] eqn:Hrun.
  - apply release_all_inv in Hrun as (Hdup & _).
    unfold non_null in Hdup. rewrite filter_cons, filter_app in Hdup.
    assert (Hdup' : NoDup (filter (λ p, p ≠ NULL) (tilesets map ≫= tileset_owned)
                           ++ filter (λ p, p ≠ NULL) rest)).
    { destruct (decide _); [by apply NoDup_cons in Hdup as [_ ?]|done]. }
    apply NoDup_app in Hdup' as (_ & Hdisjoint & _).
    exfalso. apply (Hdisjoint (tile_ptr tile)); by apply list_elem_of_filter.
  - destruct (release_all_fails _ _ _ Hrun) as (p & -> & _).
    by exists p.
Qed.

(** The example map with such a registry: the tile at address 30 is in
    the second tileset and in the registry. *)
Lemma al_free_map_owning_registry_double_free_witness :
  ∃ p, al_free_map (example_map_with (registry (Some _al_free_tile)))
         example_heap
       = UB (InvalidFree p).
Proof.
  apply (al_free_map_owning_registry_double_free
           (example_map_with (registry (Some _al_free_tile)))
           {| tileset_ptr := 14; tileset_name := str 15 "props";
              tileset_source := str 16 "props.png";
              tileset_tiles := [other_tile]; tileset_bitmap := 17 |}
           other_tile 1 other_tile);
    [ reflexivity | reflexivity | by right; left | by left
    | reflexivity | reflexivity | done ].
Defined.

(** ** The tiles at a position *)

Section Stacking.

Variable char_is_signed : bool.

Local Abbreviation al_get_single_tile := (al_get_single_tile char_is_signed).
Local Abbreviation TILES_END := (TILES_END char_is_signed).
Local Abbreviation al_get_tiles_in := (al_get_tiles_in char_is_signed).

(** X14. What [al_get_tiles] does after its [malloc], on a block of
    [layer_count + 1] cells: for well-formed layers and a position in
    bounds of each, it is defined, the block holds [al_get_single_tile]
    of each layer in the map's order and then the terminator, and the
    terminator occurs in cell [layer_count] and in no other cell, so a
    scan for it finds the end. *)
Theorem al_get_tiles_in_terminated map x y :
  Forall (λ l, layer_wf l ∧ 0 ≤ x < width l ∧ 0 ≤ y < height l) (layers map) →
  g_slist_length (layers map) ≤ INT_MAX →
  ∃ ids,
    al_get_tiles_in (malloc (1 * (g_slist_length (layers map) + 1))) map x y
    = Ok ((Some <$> ids) ++ [Some TILES_END]) ∧
    Forall2 (λ l id, al_get_single_tile l x y = Ok id) (layers map) ids ∧
    ∀ j, ((Some <$> ids) ++ [Some TILES_END]) !! j = Some (Some TILES_END)
         ↔ j = length (layers map).
Proof.
  intros Hls Hmax.
  destruct (al_get_tiles_in_larger_block char_is_signed map x y Hls Hmax)
    as (ids & Hids & Hrun).
  exists ids. split_and!; try done.
  assert (Hlen : length ids = length (layers map)).
  { symmetry. by eapply Forall2_length. }
  assert (Hne : Forall (λ id, id ≠ TILES_END) ids).
  { apply Forall_forall. intros id Hid.
    apply list_elem_of_lookup in Hid as [k Hk].
    destruct (Forall2_lookup_r _ _ _ _ _ Hids Hk) as (l & Hl & Hget).
    destruct (Forall_lookup_1 _ _ _ _ Hls Hl) as (Hwf & Hx & Hy).
    destruct (lookup_tile_in_bounds char_is_signed l x y Hwf Hx Hy)
      as (b & _ & Hraw).
    rewrite (al_get_single_tile_of_lookup _ _ _ _ _ Hraw) in Hget.
    destruct (clear_flip_flags_byte char_is_signed b) as [Hmask _].
    destruct (masked_byte_flag_free char_is_signed b) as (_ & _ & _ & _ & _ & Hend & _).
    congruence. }
  intros j. split.
  - intros Hj. destruct (decide (j < length ids)%nat) as [Hlt|Hge].
    + rewrite lookup_app_l in Hj by (by rewrite length_fmap).
      rewrite list_lookup_fmap in Hj.
      destruct (ids !! j) as [id|] eqn:Hid; [|done].
      rewrite Forall_forall in Hne. injection Hj as Hj.
      exfalso. apply (Hne id); [|done]. by eapply list_elem_of_lookup_2.
    + apply lookup_lt_Some in Hj. rewrite length_app, length_fmap in Hj.
      simpl in Hj. lia.
  - intros ->. rewrite lookup_app_r by (rewrite length_fmap; lia).
    rewrite length_fmap, Hlen, Nat.sub_diag. done.
Qed.

End Stacking.

Lemma al_get_tiles_in_terminated_witness :
  ∃ ids,
    al_get_tiles_in true (malloc 3) example_map 2 1
    = Ok ((Some <$> ids) ++ [Some (-1)]) ∧
    Forall2 (λ l id, al_get_single_tile true l 2 1 = Ok id) [ground; sky] ids.
Proof.
  destruct (al_get_tiles_in_terminated true example_map 2 1)
    as (ids & Hrun & Hids & _).
  - repeat apply Forall_cons_2; [| |apply Forall_nil_2];
      split_and!; layer_facts.
  - layer_facts.
  - by exists ids.
Defined.
